(** * A FastAPI application that hands work to Celery

    Shallow embedding of [examples/fastapi-app/main.py] and
    [examples/fastapi-app/tasks.py].

    The two files are glue around Celery: [tasks.py] creates the Celery
    application (Redis broker, Redis result backend, JSON serializers),
    registers three task functions and declares one periodic entry;
    [main.py] exposes HTTP endpoints that dispatch a task with [.delay],
    read a task back through [AsyncResult], and probe Redis.

    Python values are modelled as a small JSON-like datatype, fallible
    Python code as an error monad, the broker as a FIFO list of messages
    and the result backend as a finite map from task ids to stored
    metadata. *)

From Stdlib Require Import ZArith QArith Lia.
From stdpp Require Import base option list strings gmap.

Local Open Scope Z_scope.
Set Warnings "-register-all".

(** ** Python values and exceptions *)

(** An instance of Python's [Exception] class: its class name and the text
    that [str(e)] yields. *)
Record exception := Exception { exc_type : string; exc_msg : string }.

(** [str(e)] *)
Definition str_exc (e : exception) : string := exc_msg e.

(** JSON-compatible values, the exception instances that Celery hands back
    as the result of a failed task, and Python dictionaries as association
    lists in iteration (insertion) order. *)
Inductive value :=
| VNone
| VBool (b : bool)
| VInt (n : Z)
| VFloat (x : Q)
| VStr (s : string)
| VList (l : list value)
| VDict (d : list (string * value))
| VExc (e : exception).

Abbreviation dict := (list (string * value)).

(** [d.keys()], in iteration order *)
Definition dict_keys (d : dict) : list string := d.*1.

(** [d.get(k)] *)
Fixpoint dict_get (k : string) (d : dict) : option value :=
  match d with
  | [] => None
  | (k', v) :: d => if decide (k = k') then Some v else dict_get k d
  end.

(** [del d[k]] for a key that may be absent *)
Fixpoint dict_del (k : string) (d : dict) : dict :=
  match d with
  | [] => []
  | (k', v) :: d => if decide (k = k') then dict_del k d else (k', v) :: dict_del k d
  end.

(** [type(v).__name__] *)
Definition type_name (v : value) : string :=
  match v with
  | VNone => "NoneType"
  | VBool _ => "bool"
  | VInt _ => "int"
  | VFloat _ => "float"
  | VStr _ => "str"
  | VList _ => "list"
  | VDict _ => "dict"
  | VExc e => exc_type e
  end.

(** ** Fallible Python code *)

(** A Python computation that returns or raises an instance of
    [Exception], the class that the [except] clause of the source names. *)
Inductive py_result (A : Type) :=
| Ok (a : A)
| Raise (e : exception).
Arguments Ok {A} a.
Arguments Raise {A} e.

Global Instance py_ret : MRet py_result := λ A a, Ok a.
Global Instance py_bind : MBind py_result := λ A B f c,
  match c with
  | Ok a => f a
  | Raise e => Raise e
  end.

(** The exceptions that are not instances of [Exception]. *)
Inductive interrupt := KeyboardInterrupt | SystemExit.

(** A Python statement that talks to the outside world returns, raises an
    instance of [Exception], or is cut short by one of the exceptions
    outside [Exception]. *)
Inductive py_outcome (A : Type) :=
| Done (r : py_result A)
| Interrupted (k : interrupt).
Arguments Done {A} r.
Arguments Interrupted {A} k.

Coercion Done : py_result >-> py_outcome.

Global Instance outcome_ret : MRet py_outcome := λ A a, Done (Ok a).
Global Instance outcome_bind : MBind py_outcome := λ A B f c,
  match c with
  | Done (Ok a) => f a
  | Done (Raise e) => Done (Raise e)
  | Interrupted k => Interrupted k
  end.

(** [try: body / except Exception as e: handler(e)]. The clause catches the
    instances of [Exception]; what is outside [Exception] passes through. *)
Definition try_except {A} (body : py_outcome A) (handler : exception → py_outcome A)
  : py_outcome A :=
  match body with
  | Done (Ok a) => Done (Ok a)
  | Done (Raise e) => handler e
  | Interrupted k => Interrupted k
  end.

Definition TypeError (msg : string) : exception := Exception "TypeError" msg.
Definition AttributeError (msg : string) : exception := Exception "AttributeError" msg.

(** Binding of the positional and keyword arguments of a call to the
    parameter list of a function without defaults: positional arguments fill the parameters
    from the left, the remaining ones are taken from the keywords; too many,
    missing, doubly given or unknown arguments raise [TypeError]. *)
Fixpoint bind_args (params : list string) (args : list value) (kwargs : dict)
  : py_result (list value) :=
  match params, args with
  | [], [] =>
      match kwargs with
      | [] => Ok []
      | (k, _) :: _ => Raise (TypeError ("got an unexpected keyword argument '" +:+ k +:+ "'"))
      end
  | [], _ :: _ => Raise (TypeError "too many positional arguments")
  | p :: params, a :: args =>
      match dict_get p kwargs with
      | Some _ => Raise (TypeError ("got multiple values for argument '" +:+ p +:+ "'"))
      | None => vs ← bind_args params args kwargs; Ok (a :: vs)
      end
  | p :: params, [] =>
      match dict_get p kwargs with
      | Some v => vs ← bind_args params [] (dict_del p kwargs); Ok (v :: vs)
      | None => Raise (TypeError ("missing a required argument: '" +:+ p +:+ "'"))
      end
  end.

(** ** tasks.py: the task functions *)

(** [send_email_task(email, message)]. The two [print]s and the
    [time.sleep(5)] leave the returned record untouched. *)
Definition send_email_task (email message : value) : value :=
  VDict [("status", VStr "sent"); ("email", email); ("message", message)].

(** [process_data_task(data)]. [now] is the reading of [time.time()].
    [data.keys()] exists on dictionaries only; any other value raises
    [AttributeError] at that line. *)
Definition process_data_task (now : Q) (data : value) : py_result value :=
  match data with
  | VDict d =>
      Ok (VDict [("processed", VBool true);
                 ("input_keys", VList (VStr <$> dict_keys d));
                 ("timestamp", VFloat now)])
  | _ =>
      Raise (AttributeError
               ("'" +:+ type_name data +:+ "' object has no attribute 'keys'"))
  end.

(** [periodic_cleanup_task()] *)
Definition periodic_cleanup_task : value :=
  VDict [("status", VStr "completed"); ("cleaned_items", VInt 42)].

(** ** main.py: the static endpoints *)

(** [root()], the handler of [GET /] *)
Definition root : value :=
  VDict [("status", VStr "running");
         ("message", VStr "FastAPI application is running");
         ("version", VStr "1.0.0")].

(** [get_users()], the handler of [GET /users] *)
Definition get_users : value :=
  VDict [("users",
          VList [VDict [("id", VInt 1); ("name", VStr "Alice");
                        ("email", VStr "alice@example.com")];
                 VDict [("id", VInt 2); ("name", VStr "Bob");
                        ("email", VStr "bob@example.com")]])].

(** ** main.py: the Redis probe behind /health *)

(** What the three statements of the [try] block can do in a given
    environment: [import redis], the constructor [redis.Redis(host, port,
    db)] and [r.ping()]. Each returns, raises an instance of [Exception],
    or is cut short by an exception outside [Exception]. *)
Record RedisEnv := {
  import_redis : py_outcome unit;
  Redis : string → Z → Z → py_outcome unit;
  ping : py_outcome bool
}.

(** The body of the [try] block. *)
Definition redis_probe (env : RedisEnv) : py_outcome string :=
  _ ← import_redis env;
  _ ← Redis env "localhost" 6379 0;
  _ ← ping env;
  Done (Ok "connected").

(** [check_redis_connection()] *)
Definition check_redis_connection (env : RedisEnv) : py_outcome string :=
  try_except (redis_probe env) (λ e, Done (Ok ("error: " +:+ str_exc e))).

(** [health_check()], the handler of [GET /health] *)
Definition health_check (env : RedisEnv) : py_outcome value :=
  redis ← check_redis_connection env;
  Done (Ok (VDict [("status", VStr "healthy");
                   ("redis", VStr redis);
                   ("celery", VStr "connected")])).

(** [s.startswith(p)] *)
Definition startswith (s p : string) : bool := String.prefix p s.

(** ** Celery, as tasks.py configures it *)

(** [tasks.py] creates the application with a Redis broker and a Redis result
    backend and leaves every other setting at its default (in particular
    [task_track_started] is off). The library is not part of the repository;
    the operations the two files rely on are modelled after Celery's
    documented behaviour:
    - [task.delay(...)] draws a fresh uuid, publishes one message to the
      broker and returns the id; it stores nothing in the result backend;
    - a worker takes the oldest message, calls the function registered under
      the message's task name and stores [SUCCESS] with the returned value,
      or [FAILURE] with the exception that was raised (also when no function
      is registered under the name); it then goes on with the next message;
      the backend does not replace a record that is already [SUCCESS];
    - [AsyncResult(id)] reads the backend: [status] is the stored state and
      [PENDING] when nothing is stored under the id, [result] is the stored
      result and [None] when nothing is stored, [ready()] holds in the states
      [SUCCESS] and [FAILURE].
    Celery's further states (RECEIVED, RETRY, REVOKED and the like) are
    produced by no code path of the two files and are left out. *)

Inductive state := PENDING | STARTED | SUCCESS | FAILURE.

Global Instance state_eq_dec : EqDecision state.
Proof. solve_decision. Defined.

Definition state_name (st : state) : string :=
  match st with
  | PENDING => "PENDING"
  | STARTED => "STARTED"
  | SUCCESS => "SUCCESS"
  | FAILURE => "FAILURE"
  end.

(** A task message on the broker. *)
Record Message := {
  msg_id : string;
  msg_task : string;
  msg_args : list value;
  msg_kwargs : dict
}.

(** What the result backend stores under a task id. *)
Record TaskMeta := {
  meta_status : state;
  meta_result : value
}.

(** The broker queue and the result backend behind [celery_app]. *)
Record Celery := {
  broker : list Message;
  backend : gmap string TaskMeta
}.

(** [celery_app] right after [tasks.py] has been imported. *)
Definition celery_app : Celery := {| broker := []; backend := ∅ |}.

(** A registered task: the reading of the clock during the run, the
    positional and the keyword arguments of the message. *)
Abbreviation task := (Q → list value → dict → py_result value).

Definition NotRegistered (name : string) : exception :=
  Exception "NotRegistered" name.

(** The three functions under [@celery_app.task(name=...)]. *)
Definition run_send_email_task : task := λ _ args kwargs,
  vs ← bind_args ["email"; "message"] args kwargs;
  match vs with
  | [email; message] => Ok (send_email_task email message)
  | _ => Raise (TypeError "send_email_task() takes 2 arguments")
  end.

Definition run_process_data_task : task := λ now args kwargs,
  vs ← bind_args ["data"] args kwargs;
  match vs with
  | [data] => process_data_task now data
  | _ => Raise (TypeError "process_data_task() takes 1 argument")
  end.

Definition run_periodic_cleanup_task : task := λ _ args kwargs,
  _ ← bind_args [] args kwargs;
  Ok periodic_cleanup_task.

(** [celery_app.tasks], the registry that the decorators fill. *)
Definition registered_tasks : gmap string task :=
  list_to_map [("tasks.send_email_task", run_send_email_task);
               ("tasks.process_data_task", run_process_data_task);
               ("tasks.periodic_cleanup_task", run_periodic_cleanup_task)].

(** [celery_app.conf.beat_schedule]: entry name, task name and period in
    seconds. *)
Definition beat_schedule : list (string * (string * Z)) :=
  [("cleanup-every-day", ("tasks.periodic_cleanup_task", 86400))].

(** Publishing a task message ([task.delay], [apply_async], [send_task])
    with the given arguments; [uuid] is the id that the call draws or is
    given. [task.delay] first checks the arguments against the signature of
    the task and raises [TypeError] in the caller when they do not fit; the
    two endpoints always pass arguments that fit, and the check is not
    modelled. *)
Definition apply_async (name : string) (args : list value) (kwargs : dict)
    (uuid : string) (c : Celery) : Celery :=
  {| broker := broker c ++ [{| msg_id := uuid; msg_task := name;
                               msg_args := args; msg_kwargs := kwargs |}];
     backend := backend c |}.

(** The worker running one message: the metadata it stores. Arguments and
    results travel as JSON ([task_serializer], [result_serializer]); the
    values of the three tasks are JSON-compatible and come back unchanged. *)
Definition trace_task (reg : gmap string task) (now : Q) (m : Message) : TaskMeta :=
  match reg !! msg_task m with
  | None =>
      {| meta_status := FAILURE; meta_result := VExc (NotRegistered (msg_task m)) |}
  | Some f =>
      match f now (msg_args m) (msg_kwargs m) with
      | Ok v => {| meta_status := SUCCESS; meta_result := v |}
      | Raise e => {| meta_status := FAILURE; meta_result := VExc e |}
      end
  end.

(** The backend storing an outcome under a task id: a record that is
    already [SUCCESS] is kept, anything else is replaced. *)
Definition store_result (task_id : string) (meta : TaskMeta)
    (b : gmap string TaskMeta) : gmap string TaskMeta :=
  match b !! task_id with
  | Some old =>
      if decide (meta_status old = SUCCESS) then b else <[task_id := meta]> b
  | None => <[task_id := meta]> b
  end.

(** One turn of the worker loop: take the oldest message, run it, store the
    outcome. With an empty queue the turn changes nothing. *)
Definition worker_step (reg : gmap string task) (now : Q) (c : Celery) : Celery :=
  match broker c with
  | [] => c
  | m :: q =>
      {| broker := q;
         backend := store_result (msg_id m) (trace_task reg now m) (backend c) |}
  end.

(** The expiry of a stored record ([result_expires] is left at its default
    of one day): the record is removed from the backend. *)
Definition expire (task_id : string) (c : Celery) : Celery :=
  {| broker := broker c; backend := delete task_id (backend c) |}.

(** [AsyncResult(task_id, app=celery_app)] and its three attributes. *)
Definition get_task_meta (c : Celery) (task_id : string) : TaskMeta :=
  default {| meta_status := PENDING; meta_result := VNone |} (backend c !! task_id).

Definition AsyncResult_status (c : Celery) (task_id : string) : state :=
  meta_status (get_task_meta c task_id).

Definition AsyncResult_result (c : Celery) (task_id : string) : value :=
  meta_result (get_task_meta c task_id).

Definition READY_STATES (st : state) : bool :=
  match st with
  | SUCCESS | FAILURE => true
  | PENDING | STARTED => false
  end.

Definition AsyncResult_ready (c : Celery) (task_id : string) : bool :=
  READY_STATES (AsyncResult_status c task_id).

(** ** main.py: the task endpoints *)

Record TaskRequest := { email : string; message : string }.

Record TaskResponse := { task_id : string; status : string }.

(** [POST /send-email]; [uuid] is the id drawn by [.delay]. *)
Definition send_email (task_request : TaskRequest) (uuid : string) (c : Celery)
  : Celery * TaskResponse :=
  let c' := apply_async "tasks.send_email_task" []
              [("email", VStr (email task_request));
               ("message", VStr (message task_request))] uuid c in
  (c', {| task_id := uuid; status := "queued" |}).

(** [GET /task/{task_id}], with the three reads of the backend made in one
    state ([get_task_status_reads] below has them apart). The route binds no
    empty [task_id], for which [AsyncResult] would raise. *)
Definition get_task_status (c : Celery) (task_id : string) : dict :=
  [("task_id", VStr task_id);
   ("status", VStr (state_name (AsyncResult_status c task_id)));
   ("result", if AsyncResult_ready c task_id
              then AsyncResult_result c task_id else VNone)].

(** [POST /process-data] *)
Definition process_data (data : dict) (uuid : string) (c : Celery)
  : Celery * dict :=
  let c' := apply_async "tasks.process_data_task" [VDict data] [] uuid c in
  (c', [("task_id", VStr uuid);
        ("status", VStr "processing");
        ("message", VStr "Data processing started in background")]).

(** The body that FastAPI sends for a [TaskResponse]. *)
Definition TaskResponse_json (r : TaskResponse) : dict :=
  [("task_id", VStr (task_id r)); ("status", VStr (status r))].

(** The two endpoints that submit a task, seen as one operation on the
    request they accept. *)
Inductive submission :=
| SendEmail (task_request : TaskRequest)
| ProcessData (data : dict).

Definition submit (sub : submission) (uuid : string) (c : Celery) : Celery * dict :=
  match sub with
  | SendEmail task_request =>
      let '(c', r) := send_email task_request uuid c in (c', TaskResponse_json r)
  | ProcessData data => process_data data uuid c
  end.

(** ** Runs of the system *)

(** What happens to the broker and the backend: a client dispatches a task
    (through an endpoint or otherwise) or the worker takes a turn. The
    expiry of stored records is added in [transition] below. *)
Inductive event :=
| Delay (uuid name : string) (args : list value) (kwargs : dict)
| Work (now : Q).

Definition exec (reg : gmap string task) (c : Celery) (ev : event) : Celery :=
  match ev with
  | Delay uuid name args kwargs => apply_async name args kwargs uuid c
  | Work now => worker_step reg now c
  end.

Definition run (reg : gmap string task) (c : Celery) (evs : list event) : Celery :=
  foldl (exec reg) c evs.

(** The ids in use: under them a message is queued or a result is stored. *)
Definition known_ids (c : Celery) : gset string :=
  dom (backend c) ∪ list_to_set (msg_id <$> broker c).

(** Ids are uuids: a dispatch never draws an id that is in use. *)
Definition event_ok (c : Celery) (ev : event) : Prop :=
  match ev with
  | Delay uuid _ _ _ => uuid ∉ known_ids c
  | Work _ => True
  end.

Fixpoint trace_ok (reg : gmap string task) (c : Celery) (evs : list event) : Prop :=
  match evs with
  | [] => True
  | ev :: evs => event_ok c ev ∧ trace_ok reg (exec reg c ev) evs
  end.

(** The number of worker turns in a run, and the clock readings at them. *)
Definition work_clock (evs : list event) : list Q :=
  omap (λ ev, match ev with Work now => Some now | Delay _ _ _ _ => None end) evs.

Definition works (evs : list event) : nat := length (work_clock evs).

(** Every queued message has an id of its own, and nothing is stored yet
    under the id of a queued message. *)
Definition wf (c : Celery) : Prop :=
  NoDup (msg_id <$> broker c)
  ∧ ∀ m, m ∈ broker c → backend c !! msg_id m = None.

(** ** Expiry, and a query while the backend moves on *)

(** What can happen to the broker and the backend when the expiry of stored
    records is counted as well. *)
Inductive transition :=
| Happens (ev : event)
| Expires (task_id : string).

Definition exec_transition (reg : gmap string task) (c : Celery) (t : transition)
  : Celery :=
  match t with
  | Happens ev => exec reg c ev
  | Expires task_id => expire task_id c
  end.

Definition run_transitions (reg : gmap string task) (c : Celery)
    (ts : list transition) : Celery :=
  foldl (exec_transition reg) c ts.

(** [GET /task/{task_id}] while the backend moves on: the handler reads
    [task.status], then [task.ready()], then [task.result], each from the
    backend as it is at that moment: [c1], then [c2], then [c3]. With the
    three states equal this is [get_task_status]. *)
Definition get_task_status_reads (c1 c2 c3 : Celery) (task_id : string) : dict :=
  [("task_id", VStr task_id);
   ("status", VStr (state_name (AsyncResult_status c1 task_id)));
   ("result", if AsyncResult_ready c2 task_id
              then AsyncResult_result c3 task_id else VNone)].

(** ** The periodic schedule *)

(** An entry of the schedule while the scheduler runs: the task, the period
    and the time of the last run, in seconds. *)
Record ScheduleEntry := {
  entry_task : string;
  period : Z;
  last_run_at : Z
}.

(** The entries that [beat_schedule] declares, as the scheduler holds them
    when it starts at time [now]. *)
Definition beat_entries (now : Z) : list ScheduleEntry :=
  (λ '(_, (name, p)),
     {| entry_task := name; period := p; last_run_at := now |}) <$> beat_schedule.

(** Modelled from the spec: the loop of the Scheduler, which is Celery's
    beat service and not part of the repository ([tasks.py] only declares
    the table). At a tick at time [now] an entry is due if
    [now − last_run_at ≥ period]; a due entry is submitted and its
    [last_run_at] becomes [now]. The clock counts whole seconds. *)
Definition is_due (now : Z) (e : ScheduleEntry) : bool :=
  bool_decide (period e ≤ now - last_run_at e).

Definition tick_entry (now : Z) (e : ScheduleEntry) : ScheduleEntry * bool :=
  if is_due now e
  then ({| entry_task := entry_task e; period := period e; last_run_at := now |}, true)
  else (e, false).

(** Modelled from the spec: the Scheduler running one entry over the ticks
    at the given times; the result is the entry at the end and the times at
    which the entry's task was submitted. *)
Fixpoint beat (e : ScheduleEntry) (ticks : list Z) : ScheduleEntry * list Z :=
  match ticks with
  | [] => (e, [])
  | now :: ticks =>
      let '(e1, fired) := tick_entry now e in
      let '(e2, fires) := beat e1 ticks in
      (e2, if fired then now :: fires else fires)
  end.

(** A continuously running scheduler: a tick at each of the [n] seconds that
    follow [t]. *)
Fixpoint seconds_after (t : Z) (n : nat) : list Z :=
  match n with
  | O => []
  | S n => (t + 1) :: seconds_after (t + 1) n
  end.

(** Each submission comes at least [p] after the one before it, the first
    one at least [p] after [last]. *)
Fixpoint spaced (p last : Z) (fires : list Z) : Prop :=
  match fires with
  | [] => True
  | t :: fires => p ≤ t - last ∧ spaced p t fires
  end.

(** ** The claims read on the model, and sample states *)

(** The statement of C2 read on the model: after a submission the backend
    holds a record in state [PENDING] under the id. *)
Definition pending_record_written (c : Celery) (uuid : string) : Prop :=
  ∃ m, backend c !! uuid = Some m ∧ meta_status m = PENDING.

(** The statement of C3 read on the model: the answer for an id without a
    record is none of the state records, so its status is none of the four
    state names. *)
Definition answers_not_found (c : Celery) (id : string) : Prop :=
  ∀ st, dict_get "status" (get_task_status c id) ≠ Some (VStr (state_name st)).

(** The statement of C6 read on the model: the response of a submitting
    endpoint carries the id that was handed out and the status "queued". *)
Definition responds_queued (sub : submission) (uuid : string) (c : Celery) : Prop :=
  dict_get "task_id" (submit sub uuid c).2 = Some (VStr uuid)
  ∧ dict_get "status" (submit sub uuid c).2 = Some (VStr "queued").

(** The statement of C4 read on the answer of the status query: state
    [FAILURE], a null result and an error description that is not null. *)
Definition failure_with_null_result (c : Celery) (id : string) : Prop :=
  dict_get "status" (get_task_status c id) = Some (VStr "FAILURE")
  ∧ dict_get "result" (get_task_status c id) = Some VNone
  ∧ ∃ err, dict_get "error" (get_task_status c id) = Some err ∧ err ≠ VNone.


(** A run in which [process_data_task] is dispatched on a string, so that
    [data.keys()] raises. *)
Definition failing_run : list event :=
  [Delay "id-2" "tasks.process_data_task" [VStr "x"] []; Work 0%Q].

(** A queue with a failing message ahead of a good one. *)
Definition failing_then_good : Celery :=
  run registered_tasks celery_app
    [Delay "id-2" "tasks.process_data_task" [VStr "x"] [];
     Delay "id-3" "tasks.periodic_cleanup_task" [] []].





(** A backend that holds a partial value under a started task. *)
Definition started_app : Celery :=
  {| broker := [];
     backend := {["id-1" := {| meta_status := STARTED;
                               meta_result := VStr "partial" |}]} |}.

(** The statement of C10 read on the model: the probe returns a string. *)
Definition probe_returns_string (env : RedisEnv) : Prop :=
  ∃ s, check_redis_connection env = Ok s.

(** An environment in which the package is installed, the client is built
    and a [KeyboardInterrupt] arrives during the ping. *)
Definition redis_interrupted : RedisEnv :=
  {| import_redis := Ok (); Redis := λ _ _ _, Ok ();
     ping := Interrupted KeyboardInterrupt |}.

(** The entry that [tasks.py] declares, with the scheduler started at
    time 0. *)
Definition cleanup_every_day : ScheduleEntry :=
  {| entry_task := "tasks.periodic_cleanup_task"; period := 86400;
     last_run_at := 0 |}.

(** ** JSON values and stored outcomes *)

(** What the JSON serializers that [tasks.py] configures can encode: every
    value except an exception instance, also inside lists and
    dictionaries. *)
Fixpoint json_compatible (v : value) : bool :=
  match v with
  | VNone | VBool _ | VInt _ | VFloat _ | VStr _ => true
  | VList l => forallb json_compatible l
  | VDict d => forallb (λ kv, json_compatible kv.2) d
  | VExc _ => false
  end.

(** What a worker turn with the tasks of [tasks.py] stores: [SUCCESS] with
    the dictionary that the task returned, or [FAILURE] with an exception
    instance. *)
Definition outcome_meta (m : TaskMeta) : Prop :=
  (meta_status m = SUCCESS ∧ ∃ d, meta_result m = VDict d)
  ∨ (meta_status m = FAILURE ∧ ∃ e, meta_result m = VExc e).

(** Every record of the backend is the outcome of a worker turn. *)
Definition outcome_records (c : Celery) : Prop :=
  ∀ id m, backend c !! id = Some m → outcome_meta m.

(** A Redis environment in which the package is installed and the server
    answers the ping with the given value. *)
Definition redis_up (pong : bool) : RedisEnv :=
  {| import_redis := Ok (); Redis := λ _ _ _, Ok (); ping := Ok pong |}.

(** * Properties *)

(** ** The task functions and the Redis probe *)

(** C9 (process_data_task): on every dictionary the task returns a record
    whose [processed] field is [True] and whose [input_keys] field lists the
    keys of the input in the input's iteration order. *)
Theorem process_data_task_keys (now : Q) (d : dict) :
  ∃ r, process_data_task now (VDict d) = Ok (VDict r)
       ∧ dict_get "processed" r = Some (VBool true)
       ∧ dict_get "input_keys" r = Some (VList (VStr <$> dict_keys d)).
Proof.
  eexists. split; [reflexivity|]. split; reflexivity.
Qed.

Lemma startswith_app (p s : string) : startswith (p +:+ s) p = true.
Proof.
  unfold startswith. induction p as [|a p IH]; simpl.
  - by destruct s.
  - destruct (Ascii.ascii_dec a a); [exact IH | done].
Qed.

(** C10, counterexample: a [KeyboardInterrupt] that arrives during the ping
    is no instance of [Exception]; it passes through the [except] clause, so
    the probe returns no string and the /health handler no record. *)
Lemma keyboard_interrupt_propagates :
  check_redis_connection redis_interrupted = Interrupted KeyboardInterrupt
  ∧ health_check redis_interrupted = Interrupted KeyboardInterrupt
  ∧ ¬ probe_returns_string redis_interrupted.
Proof.
  split; [reflexivity|]. split; [reflexivity|]. intros [s H]. discriminate H.
Qed.

(** C10, amended: whenever the import, the constructor and the ping return
    or raise an instance of [Exception], the probe returns a string and
    raises nothing: "connected" when all three return, and "error: "
    followed by the text of the exception when one of them raises, the
    later statements not being run; the /health handler then returns its
    record. The probe never lets an instance of [Exception] through. An
    exception outside [Exception] in one of the three statements passes
    through the probe and through the /health handler. *)
Theorem check_redis_connection_answers (env : RedisEnv) :
  (import_redis env = Ok () → Redis env "localhost" 6379 0 = Ok () →
   ∀ pong, ping env = Ok pong →
   check_redis_connection env = Ok "connected")
  ∧ (∀ e, import_redis env = Raise e
          ∨ (import_redis env = Ok () ∧ Redis env "localhost" 6379 0 = Raise e)
          ∨ (import_redis env = Ok () ∧ Redis env "localhost" 6379 0 = Ok ()
             ∧ ping env = Raise e) →
          check_redis_connection env = Ok ("error: " +:+ str_exc e)
          ∧ startswith ("error: " +:+ str_exc e) "error: " = true)
  ∧ (∀ k, import_redis env = Interrupted k
          ∨ (import_redis env = Ok () ∧ Redis env "localhost" 6379 0 = Interrupted k)
          ∨ (import_redis env = Ok () ∧ Redis env "localhost" 6379 0 = Ok ()
             ∧ ping env = Interrupted k) →
          check_redis_connection env = Interrupted k
          ∧ health_check env = Interrupted k)
  ∧ (∀ r1 r2 r3, import_redis env = Done r1 →
                 Redis env "localhost" 6379 0 = Done r2 →
                 ping env = Done r3 →
                 ∃ s, check_redis_connection env = Ok s)
  ∧ (∀ s, check_redis_connection env = Ok s →
          (s = "connected" ∨ startswith s "error: " = true)
          ∧ health_check env =
              Ok (VDict [("status", VStr "healthy"); ("redis", VStr s);
                         ("celery", VStr "connected")]))
  ∧ (∀ e, check_redis_connection env ≠ Raise e).
Proof.
  unfold health_check, check_redis_connection, try_except, redis_probe.
  repeat split.
  - intros -> -> pong ->. done.
  - destruct H as [->|[[-> ->]|(-> & -> & ->)]]; done.
  - apply startswith_app.
  - destruct H as [->|[[-> ->]|(-> & -> & ->)]]; done.
  - destruct H as [->|[[-> ->]|(-> & -> & ->)]]; done.
  - intros r1 r2 r3 -> -> ->.
    destruct r1 as [[]|e1]; simpl; [|eauto].
    destruct r2 as [[]|e2]; simpl; [|eauto].
    destruct r3 as [pong|e3]; simpl; eauto.
  - destruct (import_redis env) as [[[]|e1]|k1]; simpl in *;
      [|injection H as <-; right; apply startswith_app|done].
    destruct (Redis env "localhost" 6379 0) as [[[]|e2]|k2]; simpl in *;
      [|injection H as <-; right; apply startswith_app|done].
    destruct (ping env) as [[pong|e3]|k3]; simpl in *;
      [injection H as <-; by left
      |injection H as <-; right; apply startswith_app|done].
  - destruct (import_redis env) as [[[]|e1]|k1]; simpl in *;
      [|by injection H as <-|done].
    destruct (Redis env "localhost" 6379 0) as [[[]|e2]|k2]; simpl in *;
      [|by injection H as <-|done].
    destruct (ping env) as [[pong|e3]|k3]; simpl in *;
      [by injection H as <-|by injection H as <-|done].
  - intros e.
    destruct (import_redis env) as [[[]|e1]|k1]; simpl; [|done..].
    destruct (Redis env "localhost" 6379 0) as [[[]|e2]|k2]; simpl; [|done..].
    destruct (ping env) as [[pong|e3]|k3]; simpl; done.
Qed.

Lemma check_redis_connection_answers_witness :
  check_redis_connection
    {| import_redis := Ok (); Redis := λ _ _ _, Ok ();
       ping := Raise (Exception "ConnectionError" "Connection refused") |}
  = Ok "error: Connection refused".
Proof.
  apply (proj1 (proj2 (check_redis_connection_answers
                         {| import_redis := Ok (); Redis := λ _ _ _, Ok ();
                            ping := Raise (Exception "ConnectionError"
                                             "Connection refused") |}))
               (Exception "ConnectionError" "Connection refused")).
  right. right. done.
Defined.

(** ** Invariants of runs *)

Lemma store_result_ne (id id' : string) (meta : TaskMeta) (b : gmap string TaskMeta) :
  id ≠ id' → store_result id meta b !! id' = b !! id'.
Proof.
  intros Hne. unfold store_result.
  destruct (b !! id) as [old|]; [case_decide; [done|]|]; by rewrite lookup_insert_ne.
Qed.

Lemma store_result_None (id : string) (meta : TaskMeta) (b : gmap string TaskMeta) :
  b !! id = None → store_result id meta b !! id = Some meta.
Proof.
  intros Hnone. unfold store_result. rewrite Hnone. apply lookup_insert_eq.
Qed.

Lemma store_result_eq (id : string) (meta : TaskMeta) (b : gmap string TaskMeta) :
  store_result id meta b !! id = Some meta
  ∨ ∃ old, b !! id = Some old ∧ meta_status old = SUCCESS
           ∧ store_result id meta b !! id = Some old.
Proof.
  unfold store_result. destruct (b !! id) as [old|] eqn:Hold.
  - case_decide as Hs.
    + right. exists old. by rewrite Hold.
    + left. apply lookup_insert_eq.
  - left. apply lookup_insert_eq.
Qed.

Section Runs.
Variable reg : gmap string task.

Lemma wf_celery_app : wf celery_app.
Proof.
  split; simpl; [constructor|]. intros m Hm. by apply elem_of_nil in Hm.
Qed.

Lemma known_ids_backend (c : Celery) (id : string) (r : TaskMeta) :
  backend c !! id = Some r → id ∈ known_ids c.
Proof.
  intros H. unfold known_ids. apply elem_of_union_l, elem_of_dom. eauto.
Qed.

Lemma fresh_backend (c : Celery) (id : string) :
  id ∉ known_ids c → backend c !! id = None.
Proof.
  intros H. destruct (backend c !! id) eqn:E; [|done].
  exfalso. eauto using known_ids_backend.
Qed.

Lemma wf_exec (c : Celery) (ev : event) :
  wf c → event_ok c ev → wf (exec reg c ev).
Proof.
  intros Hwf Hok. pose proof Hwf as [Hnd Hq].
  destruct ev as [uuid name args kwargs|now]; simpl.
  - unfold apply_async. split; simpl.
    + rewrite fmap_app. apply NoDup_app. split; [done|]. split.
      * intros id Hid Hin. apply list_elem_of_singleton in Hin. simpl in Hin.
        subst id. apply Hok. unfold known_ids.
        by apply elem_of_union_r, elem_of_list_to_set.
      * simpl. apply NoDup_singleton.
    + intros m [Hm|Hm]%elem_of_app; [by apply Hq|].
      apply list_elem_of_singleton in Hm. subst m. simpl.
      by apply fresh_backend.
  - unfold worker_step. destruct (broker c) as [|m q] eqn:Hb; [done|].
    simpl in Hnd. apply NoDup_cons in Hnd as [Hm Hnd].
    split; simpl; [done|].
    intros m' Hm'. rewrite store_result_ne.
    + apply Hq. by right.
    + intros Heq. apply Hm. rewrite Heq. apply list_elem_of_fmap. eauto.
Qed.

Lemma backend_exec (c : Celery) (ev : event) (id : string) (r : TaskMeta) :
  wf c → backend c !! id = Some r → backend (exec reg c ev) !! id = Some r.
Proof.
  intros [_ Hq] Hr. destruct ev as [uuid name args kwargs|now]; simpl; [done|].
  unfold worker_step. destruct (broker c) as [|m q] eqn:Hb; [done|]. simpl.
  rewrite store_result_ne; [done|].
  intros <-. rewrite Hq in Hr; [done|]. by left.
Qed.

Lemma wf_run (evs : list event) (c : Celery) :
  wf c → trace_ok reg c evs → wf (run reg c evs).
Proof.
  revert c. induction evs as [|ev evs IH]; intros c Hwf Hok; [done|].
  destruct Hok as [Hev Hok]. simpl. apply IH; [by apply wf_exec|done].
Qed.

Lemma backend_run (evs : list event) (c : Celery) (id : string) (r : TaskMeta) :
  wf c → trace_ok reg c evs → backend c !! id = Some r →
  backend (run reg c evs) !! id = Some r.
Proof.
  revert c. induction evs as [|ev evs IH]; intros c Hwf Hok Hr; [done|].
  destruct Hok as [Hev Hok]. simpl.
  apply IH; [by apply wf_exec|done|by apply backend_exec].
Qed.

(** The message at position [k] of the queue is run at the [k+1]-th worker
    turn, and what that turn stores is still there at the end of the run. *)
Lemma queued_run (evs : list event) (c : Celery) (k : nat) (m : Message) :
  wf c → trace_ok reg c evs → broker c !! k = Some m → (k < works evs)%nat →
  ∃ now, work_clock evs !! k = Some now
         ∧ backend (run reg c evs) !! msg_id m = Some (trace_task reg now m).
Proof.
  revert c k. induction evs as [|ev evs IH]; intros c k Hwf Hok Hk Hlt.
  { unfold works in Hlt. simpl in Hlt. lia. }
  destruct Hok as [Hev Hok].
  pose proof (wf_exec c ev Hwf Hev) as Hwf'.
  destruct ev as [uuid name args kwargs|now].
  - assert (broker (exec reg c (Delay uuid name args kwargs)) !! k = Some m) as Hk'.
    { simpl. by apply lookup_app_l_Some. }
    destruct (IH _ k Hwf' Hok Hk' Hlt) as (now & Hnow & Hres). by exists now.
  - unfold works in Hlt. simpl in Hlt.
    destruct k as [|k].
    + exists now. split; [done|]. simpl.
      apply backend_run; [done..|].
      simpl. unfold worker_step. destruct Hwf as [_ Hq].
      destruct (broker c) as [|m' q]; [done|].
      simpl in Hk. injection Hk as ->. simpl.
      apply store_result_None, Hq. by left.
    + assert (broker (exec reg c (Work now)) !! k = Some m) as Hk'.
      { simpl. unfold worker_step. by destruct (broker c) as [|m' q]. }
      assert (k < works evs)%nat as Hlt' by (unfold works; lia).
      destruct (IH _ k Hwf' Hok Hk' Hlt') as (now' & Hnow & Hres).
      by exists now'.
Qed.

End Runs.

(** ** Reading a task back *)

Lemma get_task_status_stored (c : Celery) (id : string) (m : TaskMeta) :
  backend c !! id = Some m →
  get_task_status c id =
    [("task_id", VStr id);
     ("status", VStr (state_name (meta_status m)));
     ("result", if READY_STATES (meta_status m) then meta_result m else VNone)].
Proof.
  intros H. unfold get_task_status, AsyncResult_ready, AsyncResult_result,
    AsyncResult_status, get_task_meta. by rewrite H.
Qed.

Lemma get_task_status_absent (c : Celery) (id : string) :
  backend c !! id = None →
  get_task_status c id =
    [("task_id", VStr id); ("status", VStr "PENDING"); ("result", VNone)].
Proof.
  intros H. unfold get_task_status, AsyncResult_ready, AsyncResult_result,
    AsyncResult_status, get_task_meta. by rewrite H.
Qed.

(** A dispatched task is run once the worker has taken as many turns as
    there were messages ahead of it, plus one. *)
Lemma delay_run (reg : gmap string task) (c : Celery) (uuid name : string)
    (args : list value) (kwargs : dict) (evs : list event) :
  wf c → uuid ∉ known_ids c →
  trace_ok reg (apply_async name args kwargs uuid c) evs →
  (length (broker c) < works evs)%nat →
  ∃ now, work_clock evs !! length (broker c) = Some now
         ∧ backend (run reg (apply_async name args kwargs uuid c) evs) !! uuid
           = Some (trace_task reg now
                     {| msg_id := uuid; msg_task := name;
                        msg_args := args; msg_kwargs := kwargs |}).
Proof.
  intros Hwf Hfresh Hok Hlt.
  pose proof (wf_exec reg c (Delay uuid name args kwargs) Hwf Hfresh) as Hwf'.
  simpl in Hwf'.
  eapply (queued_run reg evs _ (length (broker c))
            {| msg_id := uuid; msg_task := name;
               msg_args := args; msg_kwargs := kwargs |}); try done.
  simpl. apply list_lookup_middle. done.
Qed.

Lemma run_send_email_task_kwargs (now : Q) (e m : value) :
  run_send_email_task now [] [("email", e); ("message", m)]
  = Ok (send_email_task e m).
Proof. reflexivity. Qed.

(** C1 (send_email_task, get_task_status): a task dispatched with a fresh id
    is run at the worker turn that follows the turns for the messages queued
    ahead of it; if the registered function returns [v] at that turn, the
    status query answers [SUCCESS] with result [v] from the end of that run
    on. For a request accepted by /send-email the result is the record with
    status "sent" and the email and message of the request. *)
Theorem completed_task_reports_success (c : Celery) (uuid : string)
    (evs : list event) :
  wf c → uuid ∉ known_ids c → (length (broker c) < works evs)%nat →
  (∀ reg name args kwargs f,
     reg !! name = Some f →
     trace_ok reg (apply_async name args kwargs uuid c) evs →
     ∃ now, work_clock evs !! length (broker c) = Some now
       ∧ ∀ v, f now args kwargs = Ok v →
           get_task_status (run reg (apply_async name args kwargs uuid c) evs) uuid
           = [("task_id", VStr uuid); ("status", VStr "SUCCESS"); ("result", v)])
  ∧ (∀ task_request,
       trace_ok registered_tasks (send_email task_request uuid c).1 evs →
       get_task_status (run registered_tasks (send_email task_request uuid c).1 evs) uuid
       = [("task_id", VStr uuid); ("status", VStr "SUCCESS");
          ("result", VDict [("status", VStr "sent");
                            ("email", VStr (email task_request));
                            ("message", VStr (message task_request))])]).
Proof.
  intros Hwf Hfresh Hlt. split.
  - intros reg name args kwargs f Hf Hok.
    destruct (delay_run reg c uuid name args kwargs evs Hwf Hfresh Hok Hlt)
      as (now & Hnow & Hres).
    exists now. split; [done|]. intros v Hv.
    rewrite (get_task_status_stored _ _ _ Hres).
    unfold trace_task. simpl. rewrite Hf, Hv. done.
  - intros task_request Hok. simpl in *.
    destruct (delay_run registered_tasks c uuid _ _ _ evs Hwf Hfresh Hok Hlt)
      as (now & Hnow & Hres).
    rewrite (get_task_status_stored _ _ _ Hres). done.
Qed.

Lemma fresh_in_celery_app (uuid : string) : uuid ∉ known_ids celery_app.
Proof.
  unfold known_ids. simpl. rewrite dom_empty_L.
  intros [H|H]%elem_of_union; by apply elem_of_empty in H.
Qed.

Lemma completed_task_reports_success_witness :
  get_task_status
    (run registered_tasks
       (send_email {| email := "alice@example.com"; message := "hello" |}
          "id-1" celery_app).1 [Work 0%Q]) "id-1"
  = [("task_id", VStr "id-1"); ("status", VStr "SUCCESS");
     ("result", VDict [("status", VStr "sent");
                       ("email", VStr "alice@example.com");
                       ("message", VStr "hello")])].
Proof.
  apply (completed_task_reports_success celery_app "id-1" [Work 0%Q]).
  - apply wf_celery_app.
  - apply fresh_in_celery_app.
  - unfold works. simpl. lia.
  - simpl. done.
Defined.

(** ** Submission *)

Lemma submit_backend (sub : submission) (uuid : string) (c : Celery) :
  backend (submit sub uuid c).1 = backend c.
Proof. by destruct sub. Qed.

(** C2, counterexample: after /send-email on the fresh application nothing
    is stored under the id that was handed out. *)
Lemma send_email_writes_no_record :
  ¬ pending_record_written
      (send_email {| email := "alice@example.com"; message := "hello" |}
         "id-1" celery_app).1 "id-1".
Proof. intros (m & Hm & _). simpl in Hm. by rewrite lookup_empty in Hm. Qed.

(** C2, amended: right after a submission with a fresh id the status query
    answers [PENDING] with a null result. The submission stores nothing in
    the backend; [PENDING] is the answer for every id under which nothing is
    stored. *)
Theorem submit_then_query_pending (sub : submission) (uuid : string) (c : Celery) :
  uuid ∉ known_ids c →
  get_task_status (submit sub uuid c).1 uuid
    = [("task_id", VStr uuid); ("status", VStr "PENDING"); ("result", VNone)]
  ∧ backend (submit sub uuid c).1 = backend c
  ∧ backend (submit sub uuid c).1 !! uuid = None.
Proof.
  intros Hfresh. rewrite submit_backend.
  pose proof (fresh_backend c uuid Hfresh) as Hnone.
  split; [|done].
  apply get_task_status_absent. by rewrite submit_backend.
Qed.

Lemma submit_then_query_pending_witness :
  get_task_status
    (submit (ProcessData [("a", VInt 1)]) "id-1" celery_app).1 "id-1"
    = [("task_id", VStr "id-1"); ("status", VStr "PENDING"); ("result", VNone)]
  ∧ backend (submit (ProcessData [("a", VInt 1)]) "id-1" celery_app).1
    = backend celery_app
  ∧ backend (submit (ProcessData [("a", VInt 1)]) "id-1" celery_app).1 !! "id-1"
    = None.
Proof.
  apply (submit_then_query_pending (ProcessData [("a", VInt 1)]) "id-1" celery_app).
  apply fresh_in_celery_app.
Defined.

(** C3, counterexample: an id that was never handed out is answered with the
    state [PENDING]. *)
Lemma unknown_id_answered_pending :
  backend celery_app !! "nonexistent-id" = None
  ∧ ¬ answers_not_found celery_app "nonexistent-id".
Proof. split; [done|]. intros H. by apply (H PENDING). Qed.

(** C3, amended: for every id under which the backend holds nothing (never
    submitted, or expired and deleted) the status query answers with the
    record of state [PENDING] and a null result, the same answer as for a
    task that was submitted and not run yet; there is no separate
    not-found answer. *)
Theorem query_without_record_pending (c : Celery) (id : string) :
  backend c !! id = None →
  get_task_status c id
    = [("task_id", VStr id); ("status", VStr "PENDING"); ("result", VNone)]
  ∧ (∀ sub, get_task_status (submit sub id c).1 id = get_task_status c id)
  ∧ (∀ c', backend c' = delete id (backend c) →
           get_task_status c' id = get_task_status c id).
Proof.
  intros Hnone. rewrite (get_task_status_absent c id Hnone).
  split; [done|]. split.
  - intros sub. apply get_task_status_absent. by rewrite submit_backend.
  - intros c' Hc'. apply get_task_status_absent.
    rewrite Hc'. apply lookup_delete_eq.
Qed.

Lemma query_without_record_pending_witness :
  get_task_status celery_app "nonexistent-id"
  = [("task_id", VStr "nonexistent-id"); ("status", VStr "PENDING");
     ("result", VNone)].
Proof.
  apply (proj1 (query_without_record_pending celery_app "nonexistent-id"
                  ltac:(reflexivity))).
Defined.

(** C6, counterexample: /process-data answers with another status. *)
Lemma process_data_not_queued :
  ¬ responds_queued (ProcessData [("a", VInt 1)]) "id-1" celery_app.
Proof. intros [_ H]. discriminate H. Qed.

(** C6, amended: both submitting endpoints respond with the id that was
    handed out; /send-email responds with the status "queued",
    /process-data with the status "processing" and a message. *)
Theorem submit_response (sub : submission) (uuid : string) (c : Celery) :
  (submit sub uuid c).2 =
    match sub with
    | SendEmail _ => [("task_id", VStr uuid); ("status", VStr "queued")]
    | ProcessData _ =>
        [("task_id", VStr uuid); ("status", VStr "processing");
         ("message", VStr "Data processing started in background")]
    end
  ∧ dict_get "task_id" (submit sub uuid c).2 = Some (VStr uuid)
  ∧ (submit sub uuid c).1 =
      match sub with
      | SendEmail task_request =>
          apply_async "tasks.send_email_task" []
            [("email", VStr (email task_request));
             ("message", VStr (message task_request))] uuid c
      | ProcessData data =>
          apply_async "tasks.process_data_task" [VDict data] [] uuid c
      end.
Proof. by destruct sub. Qed.

(** C8 (get_task_status): whatever the backend holds under an id, the
    result field of the answer is null while the task is not ready, and it
    is the stored result once the task is ready. *)
Theorem result_only_when_ready (c : Celery) (id : string) :
  (AsyncResult_ready c id = false →
     dict_get "result" (get_task_status c id) = Some VNone)
  ∧ (AsyncResult_ready c id = true →
     dict_get "result" (get_task_status c id) = Some (AsyncResult_result c id)).
Proof.
  unfold get_task_status. simpl.
  destruct (AsyncResult_ready c id); split; intros H; done.
Qed.

Lemma result_only_when_ready_witness :
  AsyncResult_result started_app "id-1" = VStr "partial"
  ∧ dict_get "result" (get_task_status started_app "id-1") = Some VNone.
Proof.
  split; [reflexivity|].
  apply (proj1 (result_only_when_ready started_app "id-1")).
  reflexivity.
Defined.

(** ** Failing tasks *)

(** C4, counterexample: the answer for a task that raised carries the
    exception in its result field, and no error field. *)
Lemma raised_exception_is_the_result :
  run_process_data_task 0%Q [VStr "x"] []
    = Raise (AttributeError "'str' object has no attribute 'keys'")
  ∧ get_task_status (run registered_tasks celery_app failing_run) "id-2"
    = [("task_id", VStr "id-2"); ("status", VStr "FAILURE");
       ("result", VExc (AttributeError "'str' object has no attribute 'keys'"))]
  ∧ ¬ failure_with_null_result (run registered_tasks celery_app failing_run) "id-2".
Proof.
  split; [reflexivity|]. split; [reflexivity|].
  intros (_ & H & _). discriminate H.
Qed.

(** C4, amended: when the function of a queued task raises, the worker turn
    that runs it stores [FAILURE] together with the exception, and the
    status query answers [FAILURE] with the exception as result (not null;
    the answer has no separate error field). The worker goes on: every
    queued message, also behind the failing one, is run at its turn and its
    outcome is stored. *)
Theorem raising_task_reports_failure (reg : gmap string task) (c : Celery)
    (evs : list event) (k : nat) (m : Message) (f : task) :
  wf c → trace_ok reg c evs → broker c !! k = Some m → (k < works evs)%nat →
  reg !! msg_task m = Some f →
  ∃ now, work_clock evs !! k = Some now
    ∧ (∀ e, f now (msg_args m) (msg_kwargs m) = Raise e →
         get_task_status (run reg c evs) (msg_id m)
         = [("task_id", VStr (msg_id m)); ("status", VStr "FAILURE");
            ("result", VExc e)])
    ∧ (∀ k' m', broker c !! k' = Some m' → (k' < works evs)%nat →
         ∃ now', work_clock evs !! k' = Some now'
           ∧ backend (run reg c evs) !! msg_id m'
             = Some (trace_task reg now' m')).
Proof.
  intros Hwf Hok Hk Hlt Hf.
  destruct (queued_run reg evs c k m Hwf Hok Hk Hlt) as (now & Hnow & Hres).
  exists now. split; [done|]. split.
  - intros e He. rewrite (get_task_status_stored _ _ _ Hres).
    unfold trace_task. rewrite Hf, He. done.
  - intros k' m' Hk' Hlt'. by apply queued_run.
Qed.

(** Decides that a given id is not in use in a given state. *)
Ltac solve_fresh :=
  let H := fresh in intros H; vm_compute in H; discriminate H.

Lemma wf_failing_then_good : wf failing_then_good.
Proof.
  apply wf_run; [apply wf_celery_app|].
  simpl. split; [apply fresh_in_celery_app|]. split; [|done].
  solve_fresh.
Qed.

Lemma raising_task_reports_failure_witness :
  get_task_status (run registered_tasks failing_then_good [Work 0%Q; Work 1%Q]) "id-2"
  = [("task_id", VStr "id-2"); ("status", VStr "FAILURE");
     ("result", VExc (AttributeError "'str' object has no attribute 'keys'"))]
  ∧ backend (run registered_tasks failing_then_good [Work 0%Q; Work 1%Q]) !! "id-3"
    = Some {| meta_status := SUCCESS; meta_result := periodic_cleanup_task |}.
Proof.
  destruct (raising_task_reports_failure registered_tasks failing_then_good
              [Work 0%Q; Work 1%Q] 0
              {| msg_id := "id-2"; msg_task := "tasks.process_data_task";
                 msg_args := [VStr "x"]; msg_kwargs := [] |}
              run_process_data_task)
    as (now & Hnow & Hfail & Hnext).
  - apply wf_failing_then_good.
  - simpl. done.
  - reflexivity.
  - unfold works. simpl. lia.
  - reflexivity.
  - simpl in Hnow. injection Hnow as <-. split.
    + apply (Hfail (AttributeError "'str' object has no attribute 'keys'")).
      reflexivity.
    + destruct (Hnext 1%nat
                  {| msg_id := "id-3"; msg_task := "tasks.periodic_cleanup_task";
                     msg_args := []; msg_kwargs := [] |})
        as (now' & Hnow' & Hres'); [reflexivity|unfold works; simpl; lia|].
      simpl in Hnow'. injection Hnow' as <-. exact Hres'.
Defined.

(** ** Terminal states *)







(** A record that is [SUCCESS] survives every dispatch and every worker
    turn, also one that runs another message under the same id. *)
Lemma success_exec (reg : gmap string task) (c : Celery) (ev : event)
    (id : string) (old : TaskMeta) :
  backend c !! id = Some old → meta_status old = SUCCESS →
  backend (exec reg c ev) !! id = Some old.
Proof.
  intros Hold Hs. destruct ev as [uuid name args kwargs|now]; simpl; [done|].
  unfold worker_step. destruct (broker c) as [|m q]; [done|]. simpl.
  destruct (decide (msg_id m = id)) as [<-|Hne];
    [|by rewrite store_result_ne].
  unfold store_result. rewrite Hold. by rewrite decide_True.
Qed.


Lemma success_stored (c : Celery) (id : string) :
  AsyncResult_status c id = SUCCESS →
  ∃ old, backend c !! id = Some old ∧ meta_status old = SUCCESS.
Proof.
  unfold AsyncResult_status, get_task_meta.
  destruct (backend c !! id) as [old|]; [eauto|done].
Qed.

(** A stored record stays stored, and a [SUCCESS] record stays as it is,
    until the record expires. *)
Lemma stored_transitions (reg : gmap string task) (ts : list transition)
    (c : Celery) (id : string) :
  Expires id ∉ ts → is_Some (backend c !! id) →
  is_Some (backend (run_transitions reg c ts) !! id).
Proof.
  revert c. induction ts as [|t ts IH]; intros c Hts Hc; [done|].
  apply not_elem_of_cons in Hts as [Ht Hts]. simpl. apply IH; [done|].
  destruct t as [[uuid name args kwargs|now]|id']; simpl; [done| |].
  - unfold worker_step. destruct (broker c) as [|m q]; [done|]. simpl.
    destruct (decide (msg_id m = id)) as [<-|Hne];
      [|by rewrite store_result_ne].
    destruct (store_result_eq (msg_id m) (trace_task reg now m) (backend c))
      as [->|(old & _ & _ & ->)]; eauto.
  - unfold expire. simpl. rewrite lookup_delete_ne; [done|]. intros ->. done.
Qed.

Lemma success_transitions (reg : gmap string task) (ts : list transition)
    (c : Celery) (id : string) (old : TaskMeta) :
  Expires id ∉ ts → backend c !! id = Some old → meta_status old = SUCCESS →
  backend (run_transitions reg c ts) !! id = Some old.
Proof.
  revert c. induction ts as [|t ts IH]; intros c Hts Hold Hs; [done|].
  apply not_elem_of_cons in Hts as [Ht Hts]. simpl. apply IH; [done| |done].
  destruct t as [ev|id']; simpl; [by apply success_exec|].
  unfold expire. simpl. rewrite lookup_delete_ne; [done|]. intros ->. done.
Qed.




(** ** The periodic schedule: properties *)

Lemma beat_spaced (ticks : list Z) (e : ScheduleEntry) :
  spaced (period e) (last_run_at e) (beat e ticks).2.
Proof.
  revert e. induction ticks as [|now ticks IH]; intros e; [done|].
  simpl. unfold tick_entry, is_due.
  destruct (bool_decide (period e ≤ now - last_run_at e)) eqn:Hdue.
  - apply bool_decide_eq_true in Hdue.
    specialize (IH {| entry_task := entry_task e; period := period e;
                      last_run_at := now |}).
    destruct (beat _ ticks) as [e2 fires]. simpl in *. done.
  - specialize (IH e). destruct (beat e ticks) as [e2 fires]. done.
Qed.

Lemma spaced_consecutive (p : Z) (fires : list Z) (last : Z) (i : nat) (a b : Z) :
  spaced p last fires → fires !! i = Some a → fires !! S i = Some b → p ≤ b - a.
Proof.
  revert last i. induction fires as [|t fires IH]; intros last i Hsp Ha Hb; [done|].
  destruct Hsp as [_ Hsp]. destruct i as [|i].
  - simpl in Ha. injection Ha as ->.
    destruct fires as [|t' fires]; [done|]. simpl in Hb. injection Hb as ->.
    by destruct Hsp.
  - by apply (IH t i).
Qed.

(** With a tick at every second, an entry that ran less than a period ago is
    submitted [(t − last_run_at + n) / period] times in the next [n]
    seconds, and has again run less than a period ago afterwards. *)
Lemma beat_count (n : nat) (e : ScheduleEntry) (t : Z) :
  0 < period e → 0 ≤ t - last_run_at e < period e →
  Z.of_nat (length (beat e (seconds_after t n)).2)
    = (t - last_run_at e + Z.of_nat n) / period e
  ∧ period (beat e (seconds_after t n)).1 = period e
  ∧ 0 ≤ t + Z.of_nat n - last_run_at (beat e (seconds_after t n)).1 < period e.
Proof.
  revert e t. induction n as [|n IH]; intros e t Hp Hr.
  { cbn [seconds_after beat snd fst length]. rewrite Z.add_0_r.
    split; [|split; [done|lia]]. symmetry. apply Z.div_small. lia. }
  cbn [seconds_after beat]. unfold tick_entry, is_due.
  rewrite Nat2Z.inj_succ.
  destruct (bool_decide (period e ≤ t + 1 - last_run_at e)) eqn:Hdue.
  - apply bool_decide_eq_true in Hdue.
    destruct (IH {| entry_task := entry_task e; period := period e;
                    last_run_at := t + 1 |} (t + 1)) as (Hc & Hper & Hst);
      [done|cbn [period last_run_at]; lia|].
    destruct (beat _ (seconds_after (t + 1) n)) as [e2 fires].
    cbn [fst snd length period last_run_at] in *.
    split; [|split; [done|lia]].
    rewrite Nat2Z.inj_succ, Hc.
    transitivity ((Z.of_nat n + 1 * period e) / period e).
    + rewrite Z.div_add by lia.
      replace (t + 1 - (t + 1) + Z.of_nat n) with (Z.of_nat n) by lia. lia.
    + f_equal. lia.
  - apply bool_decide_eq_false in Hdue.
    destruct (IH e (t + 1)) as (Hc & Hper & Hst); [done|lia|].
    destruct (beat e (seconds_after (t + 1) n)) as [e2 fires].
    cbn [fst snd] in *. split; [|split; [done|lia]].
    rewrite Hc. f_equal. lia.
Qed.

(** C7 (beat_schedule): an entry with period [P > 0] is submitted at a tick
    exactly when [now − last_run_at ≥ P], and [last_run_at] is then set to
    the time of the tick; two consecutive submissions of the entry are never
    closer together than [P]; and while the scheduler runs without a break
    (a tick at every second since its start at [t0]), the number [k] of
    submissions during any [D] seconds differs from [D / P] by at most one,
    that is [|k · P − D| ≤ P]. *)
Theorem beat_period (e : ScheduleEntry) (n D : nat) :
  0 < period e →
  (∀ now, tick_entry now e =
          if decide (period e ≤ now - last_run_at e)
          then ({| entry_task := entry_task e; period := period e;
                   last_run_at := now |}, true)
          else (e, false))
  ∧ (∀ ticks i a b,
       (beat e ticks).2 !! i = Some a → (beat e ticks).2 !! S i = Some b →
       period e ≤ b - a)
  ∧ (let t0 := last_run_at e in
     let e1 := (beat e (seconds_after t0 n)).1 in
     let k := Z.of_nat (length (beat e1 (seconds_after (t0 + Z.of_nat n) D)).2) in
     Z.abs (k * period e - Z.of_nat D) ≤ period e).
Proof.
  intros Hp. split; [|split].
  - intros now. unfold tick_entry, is_due. by case_bool_decide; case_decide.
  - intros ticks i a b.
    apply (spaced_consecutive _ _ (last_run_at e)), beat_spaced.
  - intros t0 e1 k.
    destruct (beat_count n e t0 Hp) as (_ & Hper & Hst); [lia|].
    fold e1 in Hper, Hst.
    destruct (beat_count D e1 (t0 + Z.of_nat n)) as (Hk & _ & _); [lia..|].
    fold k in Hk. rewrite Hper in Hk.
    set (r := t0 + Z.of_nat n - last_run_at e1) in *.
    pose proof (Z.div_mod (r + Z.of_nat D) (period e)) as Hdm.
    pose proof (Z.mod_pos_bound (r + Z.of_nat D) (period e) Hp) as Hmod.
    rewrite <- Hk in Hdm. nia.
Qed.

Lemma beat_period_witness :
  beat_entries 0 = [cleanup_every_day]
  ∧ ∀ ticks i a b,
      (beat cleanup_every_day ticks).2 !! i = Some a →
      (beat cleanup_every_day ticks).2 !! S i = Some b →
      86400 ≤ b - a.
Proof.
  split; [reflexivity|].
  apply (beat_period cleanup_every_day 10 20). simpl. lia.
Defined.

(** An entry with a period of three seconds, started at time 0 and ticked at
    each of the next ten seconds. *)
Example beat_every_three_seconds :
  (beat {| entry_task := "t"; period := 3; last_run_at := 0 |}
     (seconds_after 0 10)).2 = [3; 6; 9].
Proof. reflexivity. Qed.

(** * Further properties of the two files *)

(** ** Calls of the task functions *)

Lemma bind_args_length (params : list string) (args : list value) (kwargs : dict)
    (vs : list value) :
  bind_args params args kwargs = Ok vs → length vs = length params.
Proof.
  revert args kwargs vs.
  induction params as [|p params IH]; intros args kwargs vs H.
  - destruct args; [|done]. destruct kwargs as [|[k v] kwargs]; [|done].
    by injection H as <-.
  - destruct args as [|a args]; simpl in H.
    + destruct (dict_get p kwargs) as [v|]; [|done].
      destruct (bind_args params [] (dict_del p kwargs)) as [vs'|] eqn:E; [|done].
      simpl in H. injection H as <-. simpl. f_equal. by eapply IH.
    + destruct (dict_get p kwargs) as [v|]; [done|].
      destruct (bind_args params args kwargs) as [vs'|] eqn:E; [|done].
      simpl in H. injection H as <-. simpl. f_equal. by eapply IH.
Qed.

Lemma bind_args_raise (params : list string) (args : list value) (kwargs : dict)
    (e : exception) :
  bind_args params args kwargs = Raise e → exc_type e = "TypeError".
Proof.
  revert args kwargs.
  induction params as [|p params IH]; intros args kwargs H.
  - destruct args; [|by injection H as <-].
    destruct kwargs as [|[k v] kwargs]; [done|]. by injection H as <-.
  - destruct args as [|a args]; simpl in H.
    + destruct (dict_get p kwargs) as [v|]; [|by injection H as <-].
      destruct (bind_args params [] (dict_del p kwargs)) as [vs'|] eqn:E; [done|].
      simpl in H. injection H as <-. by eapply IH.
    + destruct (dict_get p kwargs) as [v|]; [by injection H as <-|].
      destruct (bind_args params args kwargs) as [vs'|] eqn:E; [done|].
      simpl in H. injection H as <-. by eapply IH.
Qed.

Lemma dict_get_Forall (P : value → Prop) (k : string) (d : dict) (v : value) :
  Forall (λ kv, P kv.2) d → dict_get k d = Some v → P v.
Proof.
  induction d as [|[k' v'] d IH]; intros Hd H; [done|].
  apply Forall_cons in Hd as [Hv Hd]. simpl in H.
  destruct (decide (k = k')); [by injection H as <-|by apply IH].
Qed.

Lemma dict_del_Forall (P : value → Prop) (k : string) (d : dict) :
  Forall (λ kv, P kv.2) d → Forall (λ kv, P kv.2) (dict_del k d).
Proof.
  induction d as [|[k' v'] d IH]; intros Hd; [done|].
  apply Forall_cons in Hd as [Hv Hd]. simpl.
  destruct (decide (k = k')); [by apply IH|]. apply Forall_cons. split; [done|by apply IH].
Qed.

(** The values that a call binds are among the positional and the keyword
    arguments. *)
Lemma bind_args_Forall (P : value → Prop) (params : list string)
    (args : list value) (kwargs : dict) (vs : list value) :
  Forall P args → Forall (λ kv, P kv.2) kwargs →
  bind_args params args kwargs = Ok vs → Forall P vs.
Proof.
  revert args kwargs vs.
  induction params as [|p params IH]; intros args kwargs vs Ha Hk H.
  - destruct args; [|done]. destruct kwargs as [|[k v] kwargs]; [|done].
    by injection H as <-.
  - destruct args as [|a args]; simpl in H.
    + destruct (dict_get p kwargs) as [v|] eqn:Hv; [|done].
      destruct (bind_args params [] (dict_del p kwargs)) as [vs'|] eqn:E; [|done].
      simpl in H. injection H as <-. apply Forall_cons. split.
      * by eapply dict_get_Forall.
      * eapply IH; [|by apply dict_del_Forall|done]. done.
    + destruct (dict_get p kwargs) as [v|]; [done|].
      destruct (bind_args params args kwargs) as [vs'|] eqn:E; [|done].
      simpl in H. injection H as <-.
      apply Forall_cons in Ha as [Ha Has]. apply Forall_cons. split; [done|].
      by eapply IH.
Qed.

(** The registry holds the three tasks of [tasks.py] and nothing else. *)
Lemma registered_tasks_inv (name : string) (f : task) :
  registered_tasks !! name = Some f →
  (name = "tasks.send_email_task" ∧ f = run_send_email_task)
  ∨ (name = "tasks.process_data_task" ∧ f = run_process_data_task)
  ∨ (name = "tasks.periodic_cleanup_task" ∧ f = run_periodic_cleanup_task).
Proof.
  unfold registered_tasks. simpl. intros H.
  rewrite lookup_insert in H. case_decide as H1.
  { injection H as <-. by left. }
  rewrite lookup_insert in H. case_decide as H2.
  { injection H as <-. right. by left. }
  rewrite lookup_insert in H. case_decide as H3.
  { injection H as <-. right. by right. }
  by rewrite lookup_empty in H.
Qed.

(** X1: run on any arguments, a registered task either returns the record
    that its function builds from the bound arguments, or raises
    [TypeError] because the arguments do not fit its parameters; the one
    other failure is [AttributeError] from [process_data_task] when its
    argument is not a dictionary. *)
Theorem registered_task_outcome (name : string) (f : task) (now : Q)
    (args : list value) (kwargs : dict) :
  registered_tasks !! name = Some f →
  match f now args kwargs with
  | Ok v =>
      (name = "tasks.send_email_task"
       ∧ ∃ e m, bind_args ["email"; "message"] args kwargs = Ok [e; m]
                ∧ v = send_email_task e m)
      ∨ (name = "tasks.process_data_task"
         ∧ ∃ d, bind_args ["data"] args kwargs = Ok [VDict d]
                ∧ process_data_task now (VDict d) = Ok v)
      ∨ (name = "tasks.periodic_cleanup_task"
         ∧ args = [] ∧ kwargs = [] ∧ v = periodic_cleanup_task)
  | Raise e =>
      exc_type e = "TypeError"
      ∨ (name = "tasks.process_data_task"
         ∧ exc_type e = "AttributeError"
         ∧ ∃ data, bind_args ["data"] args kwargs = Ok [data]
                   ∧ ∀ d, data ≠ VDict d)
  end.
Proof.
  intros [[-> ->]|[[-> ->]|[-> ->]]]%registered_tasks_inv.
  - unfold run_send_email_task.
    destruct (bind_args ["email"; "message"] args kwargs) as [vs|e] eqn:E; simpl.
    + pose proof (bind_args_length _ _ _ _ E) as Hlen.
      destruct vs as [|e [|m [|x vs]]]; try done.
      left. split; [done|]. by exists e, m.
    + left. by eapply bind_args_raise.
  - unfold run_process_data_task.
    destruct (bind_args ["data"] args kwargs) as [vs|e] eqn:E; simpl.
    + pose proof (bind_args_length _ _ _ _ E) as Hlen.
      destruct vs as [|data [|x vs]]; try done.
      destruct data; simpl;
        try (right; split; [done|]; split; [done|]; eexists; split; [done|];
             intros d; discriminate).
      right. left. split; [done|]. by exists d.
    + left. by eapply bind_args_raise.
  - unfold run_periodic_cleanup_task.
    destruct args as [|a args]; [|by left].
    destruct kwargs as [|[k v] kwargs]; [|by left].
    simpl. right. right. done.
Qed.

Lemma registered_task_outcome_witness :
  exc_type (AttributeError "'list' object has no attribute 'keys'") = "TypeError"
  ∨ ("tasks.process_data_task" = "tasks.process_data_task"
     ∧ exc_type (AttributeError "'list' object has no attribute 'keys'")
       = "AttributeError"
     ∧ ∃ data, bind_args ["data"] [] [("data", VList [])] = Ok [data]
               ∧ ∀ d, data ≠ VDict d).
Proof.
  apply (registered_task_outcome "tasks.process_data_task" run_process_data_task
           0%Q [] [("data", VList [])]).
  reflexivity.
Defined.

(** X2: with JSON-compatible arguments a registered task returns a
    JSON-compatible value, so the result serializer that [tasks.py]
    configures can encode every result. *)
Theorem registered_task_result_json (name : string) (f : task) (now : Q)
    (args : list value) (kwargs : dict) (v : value) :
  registered_tasks !! name = Some f →
  Forall (λ a, json_compatible a = true) args →
  Forall (λ kv, json_compatible kv.2 = true) kwargs →
  f now args kwargs = Ok v →
  json_compatible v = true.
Proof.
  intros [[-> ->]|[[-> ->]|[-> ->]]]%registered_tasks_inv Ha Hk.
  - unfold run_send_email_task.
    destruct (bind_args ["email"; "message"] args kwargs) as [vs|e] eqn:E; [|done].
    pose proof (bind_args_Forall _ _ _ _ _ Ha Hk E) as Hvs.
    pose proof (bind_args_length _ _ _ _ E) as Hlen.
    destruct vs as [|e [|m [|x vs]]]; try done.
    apply Forall_cons in Hvs as [He Hvs]. apply Forall_cons in Hvs as [Hm _].
    simpl. intros [= <-]. simpl. by rewrite He, Hm.
  - unfold run_process_data_task.
    destruct (bind_args ["data"] args kwargs) as [vs|e] eqn:E; [|done].
    pose proof (bind_args_length _ _ _ _ E) as Hlen.
    destruct vs as [|data [|x vs]]; try done.
    simpl. destruct data; try done. intros [= <-]. simpl.
    rewrite andb_true_r. induction (dict_keys d) as [|k ks IH]; [done|exact IH].
  - unfold run_periodic_cleanup_task.
    destruct (bind_args [] args kwargs); [|done]. by intros [= <-].
Qed.

Lemma registered_task_result_json_witness :
  json_compatible
    (send_email_task (VStr "alice@example.com") (VList [VInt 1; VNone])) = true.
Proof.
  apply (registered_task_result_json "tasks.send_email_task" run_send_email_task
           0%Q [VStr "alice@example.com"] [("message", VList [VInt 1; VNone])]).
  - reflexivity.
  - repeat constructor.
  - repeat constructor.
  - reflexivity.
Defined.

(** ** From an endpoint to the answer of the status query *)



(** After the expiry of its record the same task reads as [PENDING] again. *)
Example process_data_expired :
  get_task_status
    (run_transitions registered_tasks
       (run registered_tasks
          (process_data [("b", VInt 1); ("a", VNone)] "id-1" celery_app).1
          [Work (3 # 2)%Q]) [Expires "id-1"]) "id-1"
  = [("task_id", VStr "id-1"); ("status", VStr "PENDING"); ("result", VNone)].
Proof. reflexivity. Qed.

(** X4: every entry of [beat_schedule] has a positive period and names a
    task that is registered and takes no arguments: dispatched without
    arguments under a fresh id, as the scheduler does, it is run at its
    worker turn and the status query then answers [SUCCESS] with the record
    of [periodic_cleanup_task]. *)
Theorem scheduled_task_runs (entry name : string) (p : Z) (uuid : string)
    (c : Celery) (evs : list event) :
  (entry, (name, p)) ∈ beat_schedule →
  wf c → uuid ∉ known_ids c →
  trace_ok registered_tasks (apply_async name [] [] uuid c) evs →
  (length (broker c) < works evs)%nat →
  0 < p
  ∧ get_task_status (run registered_tasks (apply_async name [] [] uuid c) evs) uuid
    = [("task_id", VStr uuid); ("status", VStr "SUCCESS");
       ("result", VDict [("status", VStr "completed");
                         ("cleaned_items", VInt 42)])].
Proof.
  intros Hin Hwf Hfresh Hok Hlt.
  apply list_elem_of_singleton in Hin. injection Hin as -> -> ->.
  split; [lia|].
  destruct (delay_run registered_tasks c uuid _ _ _ evs Hwf Hfresh Hok Hlt)
    as (now & Hnow & Hres).
  by rewrite (get_task_status_stored _ _ _ Hres).
Qed.

Lemma scheduled_task_runs_witness :
  0 < 86400
  ∧ get_task_status
      (run registered_tasks
         (apply_async "tasks.periodic_cleanup_task" [] [] "id-1" celery_app)
         [Work 0%Q]) "id-1"
    = [("task_id", VStr "id-1"); ("status", VStr "SUCCESS");
       ("result", VDict [("status", VStr "completed");
                         ("cleaned_items", VInt 42)])].
Proof.
  apply (scheduled_task_runs "cleanup-every-day" "tasks.periodic_cleanup_task"
           86400 "id-1" celery_app [Work 0%Q]).
  - apply list_elem_of_singleton. reflexivity.
  - apply wf_celery_app.
  - apply fresh_in_celery_app.
  - simpl. done.
  - unfold works. simpl. lia.
Defined.

(** ** What the status query can answer *)

Lemma registered_task_returns_dict (name : string) (f : task) (now : Q)
    (args : list value) (kwargs : dict) (v : value) :
  registered_tasks !! name = Some f → f now args kwargs = Ok v → ∃ d, v = VDict d.
Proof.
  intros [[-> ->]|[[-> ->]|[-> ->]]]%registered_tasks_inv.
  - unfold run_send_email_task.
    destruct (bind_args ["email"; "message"] args kwargs) as [vs|e] eqn:E; [|done].
    pose proof (bind_args_length _ _ _ _ E) as Hlen.
    destruct vs as [|e [|m [|x vs]]]; try done.
    simpl. intros [= <-]. eauto.
  - unfold run_process_data_task.
    destruct (bind_args ["data"] args kwargs) as [vs|e] eqn:E; [|done].
    pose proof (bind_args_length _ _ _ _ E) as Hlen.
    destruct vs as [|data [|x vs]]; try done.
    simpl. destruct data; try done. intros [= <-]. eauto.
  - unfold run_periodic_cleanup_task.
    destruct (bind_args [] args kwargs); [|done]. intros [= <-]. eauto.
Qed.

Lemma outcome_records_exec (c : Celery) (ev : event) :
  outcome_records c → outcome_records (exec registered_tasks c ev).
Proof.
  intros Hc. destruct ev as [uuid name args kwargs|now]; simpl; [done|].
  unfold worker_step. destruct (broker c) as [|m q]; [done|].
  intros id r. simpl. destruct (decide (msg_id m = id)) as [<-|Hne];
    [|rewrite store_result_ne by done; by apply Hc].
  destruct (store_result_eq (msg_id m) (trace_task registered_tasks now m)
              (backend c)) as [->|(old & Hold & _ & ->)];
    [|intros [= <-]; by eapply Hc].
  intros [= <-]. unfold outcome_meta, trace_task.
  destruct (registered_tasks !! msg_task m) as [f|] eqn:Hf; [|right; eauto].
  destruct (f now (msg_args m) (msg_kwargs m)) as [v|e] eqn:Hv; [|right; eauto].
  left. split; [done|]. simpl. by eapply registered_task_returns_dict.
Qed.

Lemma outcome_records_transitions (ts : list transition) (c : Celery) :
  outcome_records c → outcome_records (run_transitions registered_tasks c ts).
Proof.
  revert c. induction ts as [|t ts IH]; intros c Hc; [done|].
  simpl. apply IH. destruct t as [ev|id']; simpl.
  - by apply outcome_records_exec.
  - intros id m Hm. unfold expire in Hm. simpl in Hm.
    apply lookup_delete_Some in Hm as [_ Hm]. by eapply Hc.
Qed.

(** X5: in every run of the application from its start, with dispatches
    under any name, arguments and id, worker turns and expiries, and with
    anything of this happening between the three reads of one status query:
    the status of the answer is [PENDING], [SUCCESS] or [FAILURE], never
    [STARTED], and the result is null, a dictionary or an exception. If the
    record of the id does not expire between the reads, [SUCCESS] comes with
    a dictionary and a null result comes with [PENDING] only. If nothing
    happens between the reads, [PENDING] means that nothing is stored and
    comes with a null result, and [FAILURE] comes with an exception. *)
Theorem status_query_reads (ts1 ts2 ts3 : list transition) (id : string) :
  let c1 := run_transitions registered_tasks celery_app ts1 in
  let c2 := run_transitions registered_tasks c1 ts2 in
  let c3 := run_transitions registered_tasks c2 ts3 in
  let answer := get_task_status_reads c1 c2 c3 id in
  (∃ st, dict_get "status" answer = Some (VStr (state_name st)) ∧ st ≠ STARTED)
  ∧ (dict_get "result" answer = Some VNone
     ∨ (∃ d, dict_get "result" answer = Some (VDict d))
     ∨ (∃ e, dict_get "result" answer = Some (VExc e)))
  ∧ (Expires id ∉ ts2 → Expires id ∉ ts3 →
     (AsyncResult_status c1 id = SUCCESS →
        ∃ d, dict_get "result" answer = Some (VDict d))
     ∧ (dict_get "result" answer = Some VNone →
        AsyncResult_status c1 id = PENDING))
  ∧ (ts2 = [] → ts3 = [] →
     answer = get_task_status c1 id
     ∧ match AsyncResult_status c1 id with
       | PENDING =>
           backend c1 !! id = None ∧ dict_get "result" answer = Some VNone
       | STARTED => False
       | SUCCESS => ∃ d, dict_get "result" answer = Some (VDict d)
       | FAILURE => ∃ e, dict_get "result" answer = Some (VExc e)
       end).
Proof.
  intros c1 c2 c3 answer.
  assert (outcome_records c1) as H1.
  { apply outcome_records_transitions. intros id' m H. simpl in H.
    by rewrite lookup_empty in H. }
  assert (outcome_records c2) as H2 by by apply outcome_records_transitions.
  assert (outcome_records c3) as H3 by by apply outcome_records_transitions.
  assert (∀ c, outcome_records c →
            match backend c !! id with
            | Some m =>
                AsyncResult_ready c id = true
                ∧ AsyncResult_status c id ≠ STARTED
                ∧ AsyncResult_status c id ≠ PENDING
                ∧ ((∃ d, AsyncResult_result c id = VDict d)
                   ∨ (∃ e, AsyncResult_result c id = VExc e))
                ∧ (AsyncResult_status c id = SUCCESS →
                   ∃ d, AsyncResult_result c id = VDict d)
                ∧ (AsyncResult_status c id = FAILURE →
                   ∃ e, AsyncResult_result c id = VExc e)
            | None =>
                AsyncResult_ready c id = false
                ∧ AsyncResult_status c id = PENDING
                ∧ AsyncResult_result c id = VNone
            end) as Hread.
  { intros c Hc. unfold AsyncResult_ready, AsyncResult_result,
      AsyncResult_status, get_task_meta.
    destruct (backend c !! id) as [m|] eqn:Hm; simpl; [|done].
    destruct (Hc id m Hm) as [(Hs & d & Hd)|(Hs & e & He)]; rewrite Hs; simpl.
    - rewrite Hd. repeat split; try done; eauto.
    - rewrite He. repeat split; try done; eauto. }
  pose proof (Hread c1 H1) as R1. pose proof (Hread c2 H2) as R2.
  pose proof (Hread c3 H3) as R3.
  unfold answer, get_task_status_reads. simpl.
  split; [|split; [|split]].
  - exists (AsyncResult_status c1 id). split; [done|].
    destruct (backend c1 !! id); [by destruct R1 as (_ & ? & _)|].
    destruct R1 as (_ & -> & _). done.
  - destruct (backend c2 !! id); [|destruct R2 as (-> & _); by left].
    destruct R2 as (-> & _).
    destruct (backend c3 !! id).
    + destruct R3 as (_ & _ & _ & [[d ->]|[e ->]] & _); eauto.
    + destruct R3 as (_ & _ & ->). by left.
  - intros Hts2 Hts3. split.
    + intros (old & Hold & Hs)%success_stored.
      pose proof (success_transitions registered_tasks ts2 c1 id old Hts2 Hold Hs)
        as Hold2. fold c2 in Hold2.
      pose proof (success_transitions registered_tasks ts3 c2 id old Hts3 Hold2 Hs)
        as Hold3. fold c3 in Hold3.
      rewrite Hold2 in R2. rewrite Hold3 in R3.
      destruct R2 as (-> & _). destruct R3 as (_ & _ & _ & _ & Hd & _).
      destruct Hd as [d ->]; [|by exists d].
      unfold AsyncResult_status, get_task_meta. by rewrite Hold3.
    + intros Hnone.
      destruct (backend c1 !! id) as [m1|] eqn:Hm1; [|by destruct R1 as (_ & ? & _)].
      exfalso.
      assert (is_Some (backend c2 !! id)) as [m2 Hm2].
      { apply stored_transitions; [done|]. rewrite Hm1. eauto. }
      assert (is_Some (backend c3 !! id)) as [m3 Hm3].
      { apply stored_transitions; [done|]. rewrite Hm2. eauto. }
      rewrite Hm2 in R2. rewrite Hm3 in R3.
      destruct R2 as (Hr & _). rewrite Hr in Hnone.
      destruct R3 as (_ & _ & _ & [[d Hd]|[e He]] & _).
      * rewrite Hd in Hnone. discriminate Hnone.
      * rewrite He in Hnone. discriminate Hnone.
  - intros Hts2 Hts3. unfold c3, c2. rewrite Hts3, Hts2. simpl.
    split; [done|].
    destruct (backend c1 !! id) as [m1|] eqn:Hm1.
    + destruct R1 as (Hr & Hst & Hpe & _ & Hd & He). rewrite Hr.
      destruct (AsyncResult_status c1 id); try done.
      * destruct Hd as [d ->]; eauto.
      * destruct He as [e ->]; eauto.
    + destruct R1 as (-> & -> & _). done.
Qed.

(** ** The Redis probe, case by case *)

(** X6: the probe answers "connected" exactly when [import redis], the
    constructor and the ping all return; the value that the ping returns is
    not looked at, and no text of an exception can make the answer read
    "connected". *)
Theorem redis_connected_iff (env : RedisEnv) :
  check_redis_connection env = Ok "connected"
  ↔ import_redis env = Ok ()
    ∧ Redis env "localhost" 6379 0 = Ok ()
    ∧ ∃ pong, ping env = Ok pong.
Proof.
  unfold check_redis_connection, try_except, redis_probe. split.
  - destruct (import_redis env) as [[[]|e]|k]; simpl; [|intros [=]..].
    destruct (Redis env "localhost" 6379 0) as [[[]|e]|k]; simpl; [|intros [=]..].
    destruct (ping env) as [[pong|e]|k]; simpl; [|intros [=]..].
    intros _. split; [done|]. split; [done|]. by exists pong.
  - intros (-> & -> & pong & ->). done.
Qed.

(** X7: the text after "error: " is that of the first statement of the [try]
    block that raises: a failing import hides the constructor and the ping,
    a failing constructor hides the ping. *)
Theorem redis_first_failure (env : RedisEnv) (e : exception) :
  (import_redis env = Raise e →
     check_redis_connection env = Ok ("error: " +:+ str_exc e))
  ∧ (import_redis env = Ok () → Redis env "localhost" 6379 0 = Raise e →
     check_redis_connection env = Ok ("error: " +:+ str_exc e))
  ∧ (import_redis env = Ok () → Redis env "localhost" 6379 0 = Ok () →
     ping env = Raise e →
     check_redis_connection env = Ok ("error: " +:+ str_exc e)).
Proof.
  unfold check_redis_connection, try_except, redis_probe.
  split; [|split].
  - by intros ->.
  - by intros -> ->.
  - by intros -> -> ->.
Qed.

(** A package that cannot be imported is reported even when a server would
    answer. *)
Lemma redis_first_failure_witness :
  check_redis_connection
    {| import_redis := Raise (Exception "ModuleNotFoundError" "No module named 'redis'");
       Redis := λ _ _ _, Ok (); ping := Ok true |}
  = Ok "error: No module named 'redis'".
Proof.
  apply (proj1 (redis_first_failure
                  {| import_redis :=
                       Raise (Exception "ModuleNotFoundError" "No module named 'redis'");
                     Redis := λ _ _ _, Ok (); ping := Ok true |}
                  (Exception "ModuleNotFoundError" "No module named 'redis'"))).
  reflexivity.
Defined.

(** A ping that returns [False] still reads as connected. *)
Example ping_value_ignored :
  check_redis_connection (redis_up false) = Ok "connected".
Proof. reflexivity. Qed.
